(** * Shortmeet meeting backend: signaling registry and meeting lifecycle

    A shallow embedding of the two server variants of the repository
    (the Socket.IO signaling handlers and the [/api/room/*] HTTP handlers)
    together with the properties stated about them. *)

From Stdlib Require Import ZArith QArith Qround String Ascii List Bool Lia DecimalString.
From stdpp Require Import gmap strings list fin_maps sorting.

Open Scope string_scope.
Open Scope list_scope.

(** ** JavaScript helpers used by the handlers *)

Module Js.



(** Truthiness of a string: only [''] is falsy. *)
Definition truthy_str (s : string) : bool :=
  match s with "" => false | _ => true end.





End Js.

(** ** Identifier generation (generateRoomCode / generateMeetingId) *)

Module Gen.








End Gen.

(** ** Signaling and chat relay (the Socket.IO handlers) *)

Module Signaling.

(** Values that travel in Socket.IO messages. *)
#[warnings="-register-all"]
Inductive jsval :=
| JUndefined
| JNull
| JBool (b : bool)
| JNum (n : Z)
| JStr (s : string)
| JObj (props : list (string * jsval)).

(** An object as its own properties, in insertion order. *)
Abbreviation jsobj := (list (string * jsval)).

Definition truthy (v : jsval) : bool :=
  match v with
  | JUndefined | JNull => false
  | JBool b => b
  | JNum n => negb (n =? 0)%Z
  | JStr s => Js.truthy_str s
  | JObj _ => true
  end.

(** [a === b].  An object received in a message is never identical to a
    stored one. *)
Definition strict_eq (a b : jsval) : bool :=
  match a, b with
  | JUndefined, JUndefined => true
  | JNull, JNull => true
  | JBool x, JBool y => Bool.eqb x y
  | JNum x, JNum y => (x =? y)%Z
  | JStr x, JStr y => String.eqb x y
  | _, _ => false
  end.

(** [o[k]], [undefined] when the property is absent. *)
Fixpoint obj_get (o : jsobj) (k : string) : jsval :=
  match o with
  | [] => JUndefined
  | (k', v) :: r => if String.eqb k' k then v else obj_get r k
  end.

(** [o[k] = v]: an existing property keeps its position. *)
Fixpoint obj_set (o : jsobj) (k : string) (v : jsval) : jsobj :=
  match o with
  | [] => [(k, v)]
  | (k', v') :: r =>
      if String.eqb k' k then (k', v) :: r else (k', v') :: obj_set r k v
  end.

(** [{ ...o, ...src }]; spreading [undefined] adds nothing. *)
Definition spread (o : jsobj) (src : option jsobj) : jsobj :=
  match src with
  | Some props => fold_left (fun acc kv => obj_set acc kv.1 kv.2) props o
  | None => o
  end.

(** The fields the handlers keep on a socket object. *)
Record Socket := mkSocket {
  userId : jsval;
  userData : option jsobj
}.

(** [io.sockets.sockets] and [io.sockets.adapter.rooms]; the members of a
    room are kept in the order in which they joined. *)
Record Io := mkIo {
  sockets : gmap string Socket;
  rooms : gmap string (list string)
}.

Inductive Outbound :=
| UserConnected (user : jsobj)
| RoomUsers (others : list jsobj)
| SignalMsg (userId signal : jsval)
| ReceiveMessage (userId userName message timestamp : jsval).

(** One event delivered to one connection. *)
Record Emit := mkEmit { to : string; msg : Outbound }.

(** [Array.from(io.sockets.adapter.rooms.get(roomId) || [])] *)
Definition clients_of (io : Io) (roomId : string) : list string :=
  default [] (rooms io !! roomId).

(** [socket.userId] of the connection [self]. *)
Definition socket_userId (io : Io) (self : string) : jsval :=
  match sockets io !! self with
  | Some s => userId s
  | None => JUndefined
  end.

(** A new connection: Socket.IO registers the socket and puts it in the
    room named by its own id; the handler of the source only logs. *)
Definition connect (io : Io) (self : string) : Io :=
  mkIo (<[self := mkSocket JUndefined None]> (sockets io))
       (<[self := [self]]> (rooms io)).

(** [socket.join(roomId)] *)
Definition socket_join (io : Io) (self roomId : string) : Io :=
  let members := clients_of io roomId in
  if bool_decide (self ∈ members) then io
  else mkIo (sockets io) (<[roomId := members ++ [self]]> (rooms io)).

(** Transport disconnect: Socket.IO drops the socket from every room and
    from the socket table; the handler of the source only logs. *)
Definition disconnect (io : Io) (self : string) : Io :=
  mkIo (delete self (sockets io))
       (omap (fun members =>
                match filter (fun id => id ≠ self) members with
                | [] => None
                | l => Some l
                end) (rooms io)).

(** [io.to(room).emit(...)]: every member of the room. *)
Definition io_to_emit (io : Io) (room : string) (m : Outbound) : list Emit :=
  map (fun id => mkEmit id m) (clients_of io room).

(** [socket.to(room).emit(...)]: every member of the room but the sender. *)
Definition socket_to_emit (io : Io) (self room : string) (m : Outbound) : list Emit :=
  map (fun id => mkEmit id m) (filter (fun id => id ≠ self) (clients_of io room)).

(** The room of a message field: only a string names a room. *)
Definition room_key (v : jsval) : option string :=
  match v with JStr r => Some r | _ => None end.

Definition clients_of_val (io : Io) (roomId : jsval) : list string :=
  match room_key roomId with
  | Some r => clients_of io r
  | None => []
  end.

(** The first half of [join-room], shared by both variants: join, bind the
    identity, announce [user-connected] to the rest of the room. *)
Definition join_bind (io : Io) (self roomId : string) (uid : jsval)
    (udata : option jsobj) : Io * list Emit :=
  let io1 := socket_join io self roomId in
  let io2 := mkIo (<[self := mkSocket uid udata]> (sockets io1)) (rooms io1) in
  (io2, socket_to_emit io2 self roomId
          (UserConnected (spread [("userId", uid)] udata))).

(** The ids the snapshot is built from:
    [clients.filter(id => id !== socket.id)]. *)
Definition other_ids (io : Io) (self roomId : string) : list string :=
  filter (fun id => id ≠ self) (clients_of io roomId).

(** First server variant. *)
Module V1.

(** [{ userId: get(id).userId, ...get(id).userData }]; [None] when the
    property access on a missing socket throws. *)
Definition entry (io : Io) (id : string) : option jsobj :=
  s ← sockets io !! id;
  Some (spread [("userId", userId s)] (userData s)).

Definition others (io : Io) (self roomId : string) : option (list jsobj) :=
  mapM (entry io) (other_ids io self roomId).

Definition join_room (io : Io) (self roomId : string) (uid : jsval)
    (udata : option jsobj) : Io * list Emit :=
  let '(io2, announced) := join_bind io self roomId uid udata in
  match others io2 self roomId with
  | Some l => (io2, announced ++ [mkEmit self (RoomUsers l)])
  | None => (io2, announced)
  end.

End V1.

(** Second server variant. *)
Module V2.

(** [{ userId: get(id)?.userId, ...get(id)?.userData }] *)
Definition entry (io : Io) (id : string) : jsobj :=
  match sockets io !! id with
  | Some s => spread [("userId", userId s)] (userData s)
  | None => [("userId", JUndefined)]
  end.

(** [.map(...).filter(user => user.userId)] *)
Definition others (io : Io) (self roomId : string) : list jsobj :=
  List.filter (fun user => truthy (obj_get user "userId"))
    (map (entry io) (other_ids io self roomId)).

Definition join_room (io : Io) (self roomId : string) (uid : jsval)
    (udata : option jsobj) : Io * list Emit :=
  let '(io2, announced) := join_bind io self roomId uid udata in
  (io2, announced ++ [mkEmit self (RoomUsers (others io2 self roomId))]).

End V2.

(** The predicate and the search of
    [clients.find(clientId => { const s = get(clientId);
                                 return s && s.userId === targetUserId })] *)
Definition bound_to (io : Io) (targetUserId : jsval) (clientId : string) : bool :=
  match sockets io !! clientId with
  | Some s => strict_eq (userId s) targetUserId
  | None => false
  end.

Definition find_target (io : Io) (clients : list string) (targetUserId : jsval)
    : option string :=
  List.find (bound_to io targetUserId) clients.

(** The [signal] handler, the same in both variants (the first one also
    logs the outcome).  [m] is the message object of the client. *)
Definition signal (io : Io) (self : string) (m : jsobj) : list Emit :=
  let roomId := obj_get m "roomId" in
  let targetUserId := obj_get m "targetUserId" in
  let sig := obj_get m "signal" in
  match find_target io (clients_of_val io roomId) targetUserId with
  | Some targetSocket =>
      if Js.truthy_str targetSocket
      then io_to_emit io targetSocket (SignalMsg (socket_userId io self) sig)
      else []
  | None => []
  end.

(** The [send-message] handler, the same in both variants. *)
Definition send_message (io : Io) (self : string) (messageData : jsobj) : list Emit :=
  match room_key (obj_get messageData "roomId") with
  | Some r =>
      socket_to_emit io self r
        (ReceiveMessage (socket_userId io self)
                        (obj_get messageData "userName")
                        (obj_get messageData "message")
                        (obj_get messageData "timestamp"))
  | None => []
  end.

(** The [userId] field of a [signal] or [receive-message] delivery. *)
Definition sender_of (m : Outbound) : option jsval :=
  match m with
  | SignalMsg u _ => Some u
  | ReceiveMessage u _ _ _ => Some u
  | _ => None
  end.

Definition no_connections : Io := mkIo ∅ ∅.

(** Two message objects that agree on every property except the sender
    identity a client may put in ([userId], [userName]). *)
Definition same_but_identity (m1 m2 : jsobj) : Prop :=
  forall k : string, k <> "userId" -> k <> "userName" -> obj_get m1 k = obj_get m2 k.

(** A delivery seen as its recipient and the [userId] field it carries. *)
Definition attributed (e : Emit) : string * option jsval :=
  (to e, sender_of (msg e)).

End Signaling.

(** ** Meeting lifecycle (the /api/room handlers) *)

Module Lifecycle.

Record Participant := mkParticipant {
  userId : string;
  userName : string;
  joinedAt : Z;
  leftAt : option Z;
  isHost : bool;
  cameraOn : option bool;
  micOn : option bool
}.

Record Settings := mkSettings {
  password : string;
  maxParticipants : Z;
  recordingEnabled : bool;
  waitingRoom : bool;
  muteOnJoin : bool;
  videoOnJoin : bool;
  chatEnabled : bool;
  screenShareEnabled : bool
}.

Record Meeting := mkMeeting {
  roomCode : string;
  meetingId : string;
  roomName : string;
  hostUserId : string;
  hostName : string;
  participants : list Participant;
  settings : Settings;
  isActive : bool;
  startTime : option Z;
  endTime : option Z;
  isInstant : bool;
  createdAt : option Z
}.

(** The [meeting] variable of a handler: the record, and its document id
    [meeting.id] when it was read from the authoritative store.  A record
    taken from [inMemoryRooms] has no id, and [meeting] is then the very
    object the map holds: mutating it mutates the map's record. *)
Record Found := mkFound {
  doc : option nat;
  obj : Meeting
}.

Definition set_participants (ps : list Participant) (m : Meeting) : Meeting :=
  mkMeeting (roomCode m) (meetingId m) (roomName m) (hostUserId m)
    (hostName m) ps (settings m) (isActive m) (startTime m)
    (endTime m) (isInstant m) (createdAt m).

Definition set_ended (now : Z) (m : Meeting) : Meeting :=
  mkMeeting (roomCode m) (meetingId m) (roomName m) (hostUserId m)
    (hostName m) (participants m) (settings m) false (startTime m)
    (Some now) (isInstant m) (createdAt m).

Definition set_leftAt (now : Z) (p : Participant) : Participant :=
  mkParticipant (userId p) (userName p) (joinedAt p) (Some now) (isHost p)
    (cameraOn p) (micOn p).

(** [p => !p.leftAt] *)
Definition not_left (p : Participant) : bool :=
  match leftAt p with None => true | Some _ => false end.

(** [meeting.participants.filter(p => !p.leftAt).length] *)
Definition activeParticipants (m : Meeting) : nat :=
  length (List.filter not_left (participants m)).

(** The position of [participants.find(p => p.userId === userId)]. *)
Fixpoint find_participant (uid : string) (ps : list Participant) : option nat :=
  match ps with
  | [] => None
  | p :: r =>
      if String.eqb (userId p) uid then Some O
      else S <$> find_participant uid r
  end.

(** [participant.leftAt = new Date()] on the participant found at [i]. *)
Definition mark_left (i : nat) (now : Z) (m : Meeting) : Meeting :=
  set_participants (alter (set_leftAt now) i (participants m)) m.

(** [meeting.participants.push(p)] *)
Definition push_participant (p : Participant) (m : Meeting) : Meeting :=
  set_participants (participants m ++ [p]) m.

(** The fields an update of the authoritative store overwrites. *)
Inductive Patch :=
| PatchParticipants (ps : list Participant)
| PatchEnded (now : Z).

Definition apply_patch (p : Patch) (m : Meeting) : Meeting :=
  match p with
  | PatchParticipants ps => set_participants ps m
  | PatchEnded now => set_ended now m
  end.

(** The authoritative collection (a document id is a position in it), the
    fallback map of the process, and the number of calls made to the
    authoritative store so far. *)
Record World := mkWorld {
  store : list Meeting;
  inMemoryRooms : gmap string Meeting;
  calls : nat
}.

(** A computation that awaits store calls: it leaves a world behind and
    either returns or throws ([None]). *)
Definition M (A : Type) : Type := World -> World * option A.

Definition ret {A} (a : A) : M A := fun w => (w, Some a).

Definition bind {A B} (m : M A) (f : A -> M B) : M B :=
  fun w => match m w with
           | (w', Some a) => f a w'
           | (w', None) => (w', None)
           end.

(** [try { body } catch { handler }]: what [body] did before it threw
    stays done. *)
Definition try_catch {A} (body handler : M A) : M A :=
  fun w => match body w with
           | (w', Some a) => (w', Some a)
           | (w', None) => handler w'
           end.

Definition gets {A} (f : World -> A) : M A := fun w => (w, Some (f w)).

Definition modify (f : World -> World) : M unit := fun w => (f w, Some tt).

Declare Scope life_scope.
Delimit Scope life_scope with life.
Notation "x <- m ;; k" := (bind m (fun x => k))
  (at level 100, m at next level, right associativity) : life_scope.
Notation "m ;;; k" := (bind m (fun _ => k))
  (at level 100, right associativity) : life_scope.

Inductive Response :=
| Created (code mid uid : string) (s : Settings)
| Joined (code mid name uid username host : string) (s : Settings)
| Ended
| Left
| RoomInfo (code mid name host : string) (participantCount : nat)
    (maxP : Z) (isPasswordProtected : bool) (flags : list bool)
| BadRequest
| Unauthorized
| Forbidden
| NotFound
| ServerError.

(** The six feature flags a room summary shows. *)
Definition public_flags (s : Settings) : list bool :=
  [recordingEnabled s; waitingRoom s; muteOnJoin s; videoOnJoin s;
   chatEnabled s; screenShareEnabled s].


(** The outer [try { ... } catch (error) { res.status(500) }]. *)
Definition handle (body : M Response) (w : World) : World * Response :=
  match body w with
  | (w', Some r) => (w', r)
  | (w', None) => (w', ServerError)
  end.

Definition tick (w : World) : World :=
  mkWorld (store w) (inMemoryRooms w) (S (calls w)).

Definition set_store (l : list Meeting) (w : World) : World :=
  mkWorld l (inMemoryRooms w) (calls w).

Definition set_rooms (r : gmap string Meeting) (w : World) : World :=
  mkWorld (store w) r (calls w).

Definition by_code (code : string) (m : Meeting) : bool :=
  String.eqb (roomCode m) code.

(** The first [(i, x)] of [l] with [p x]. *)
Fixpoint find_doc {A} (p : A -> bool) (l : list A) : option (nat * A) :=
  match l with
  | [] => None
  | x :: r => if p x then Some (O, x) else prod_map S Datatypes.id <$> find_doc p r
  end.

Section Store.

(** [reachable n]: the [n]-th call to the authoritative store goes
    through; otherwise it throws. *)
Variable reachable : nat -> bool.


(** Modelled from the spec: the lookup by room code of the absent Meeting
    model; the callers test [isActive] themselves, so an ended record is
    returned as it is stored, and [null] when no record has the code. *)
Definition Meeting_getByRoomCode (code : string) : M (option Found) :=
  fun w =>
    if reachable (calls w) then
      (tick w,
       Some ((fun '(i, m) => mkFound (Some i) m) <$> find_doc (by_code code) (store w)))
    else (tick w, None).

(** Modelled from the spec: the update of the absent Meeting model; it
    overwrites the given fields of the document [i], and fails when
    there is no such document (the records of the fallback map have no
    id). *)
Definition Meeting_update (i : option nat) (p : Patch) : M unit :=
  fun w =>
    match i with
    | Some n =>
        if reachable (calls w) && bool_decide (n < length (store w))%nat then
          (tick (set_store (alter (apply_patch p) n (store w)) w), Some tt)
        else (tick w, None)
    | None => (tick w, None)
    end.

Open Scope life_scope.

(** The lookup that join, end and get share:
    [let meeting = null;
     try { meeting = await Meeting.getByRoomCode(code) } catch {}
     if (!meeting) meeting = inMemoryRooms.get(code)] *)
Definition find_meeting (code : string) : M (option Found) :=
  meeting <- try_catch (Meeting_getByRoomCode code) (ret None) ;;
  match meeting with
  | Some f => ret (Some f)
  | None => gets (fun w => mkFound None <$> inMemoryRooms w !! code)
  end.






(** [/api/room/join] *)
Definition join (now : Z) (uid : string) (code username : string)
    (pw : option string) : World -> World * Response :=
  handle (
    if negb (Js.truthy_str code) || negb (Js.truthy_str username) then ret BadRequest
    else
      found <- find_meeting code ;;
      match found with
      | None => ret NotFound
      | Some (mkFound meeting_id meeting) =>
          if negb (isActive meeting) then ret NotFound
          else if Js.truthy_str (password (settings meeting))
                  && negb (bool_decide (Some (password (settings meeting)) = pw))
          then ret Unauthorized
          else if (maxParticipants (settings meeting) <=?
                     Z.of_nat (activeParticipants meeting))%Z
          then ret Forbidden
          else
            let newParticipant := mkParticipant uid username now None false None None in
            let meeting' := push_participant newParticipant meeting in
            match meeting_id with
            | None =>
                modify (fun w => set_rooms (<[code := meeting']> (inMemoryRooms w)) w)
            | Some _ => ret tt
            end ;;;
            try_catch
              (Meeting_update meeting_id (PatchParticipants (participants meeting')))
              (modify (fun w =>
                 match inMemoryRooms w !! code with
                 | Some room =>
                     set_rooms (<[code := push_participant newParticipant room]>
                                  (inMemoryRooms w)) w
                 | None => w
                 end)) ;;;
            ret (Joined (roomCode meeting') (meetingId meeting') (roomName meeting')
                   uid username (hostName meeting') (settings meeting'))
      end).


(** The [catch (dbError)] block of [/api/room/leave]. *)
Definition leave_in_memory (now : Z) (roomId uid : string) : M unit :=
  modify (fun w =>
    match inMemoryRooms w !! roomId with
    | Some room =>
        let room' :=
          match find_participant uid (participants room) with
          | Some i => mark_left i now room
          | None => room
          end in
        if (activeParticipants room' =? 0)%nat
        then set_rooms (delete roomId (inMemoryRooms w)) w
        else set_rooms (<[roomId := room']> (inMemoryRooms w)) w
    | None => w
    end).

(** [/api/room/leave] *)
Definition leave (now : Z) (roomId uid : string) : World -> World * Response :=
  handle (
    try_catch
      (found <- Meeting_getByRoomCode roomId ;;
       match found with
       | Some (mkFound meeting_id meeting) =>
           meeting' <-
             match find_participant uid (participants meeting) with
             | Some i =>
                 let marked := mark_left i now meeting in
                 Meeting_update meeting_id (PatchParticipants (participants marked)) ;;;
                 ret marked
             | None => ret meeting
             end ;;
           if (activeParticipants meeting' =? 0)%nat
           then Meeting_update meeting_id (PatchEnded now)
           else ret tt
       | None => ret tt
       end)
      (leave_in_memory now roomId uid) ;;;
    ret Left).

(** [GET /api/room/:roomCode] *)
Definition get (code : string) : World -> World * Response :=
  handle (
    found <- find_meeting code ;;
    match found with
    | None => ret NotFound
    | Some (mkFound _ meeting) =>
        if negb (isActive meeting) then ret NotFound
        else ret (RoomInfo (roomCode meeting) (meetingId meeting)
                    (roomName meeting) (hostName meeting)
                    (activeParticipants meeting)
                    (maxParticipants (settings meeting))
                    (Js.truthy_str (password (settings meeting)))
                    (public_flags (settings meeting)))
    end).

End Store.






(** The conditions under which [join] gets past its three refusals. *)
Definition admits (code username : string) (pw : option string) (m : Meeting) : Prop :=
  Js.truthy_str code = true /\ Js.truthy_str username = true /\
  isActive m = true /\
  (password (settings m) = "" \/ pw = Some (password (settings m))) /\
  (Z.of_nat (activeParticipants m) < maxParticipants (settings m))%Z.


End Lifecycle.

(** ** Concrete runs used in the statements below *)

Module Scenarios.
Import Signaling.

(** Two connections, [sockA] and [sockB], right after the transport
    connected them. *)
Definition two_connected : Io :=
  connect (connect no_connections "sockA") "sockB".

(** [sockA] has emitted [join-room] for ["room1"] without a user id and
    without display data. *)
Definition silent_member : Io :=
  (V1.join_room two_connected "sockA" "room1" JUndefined None).1.

Definition bob_data : option jsobj := Some [("name", JStr "Bob")].

(** [sockA] is alice and [sockB] is bob in ["room1"]; a third connection
    [sockC] has joined the room named ["sockA"] as carol. *)
Definition three_connected : Io :=
  connect (connect (connect no_connections "sockA") "sockB") "sockC".

Definition eavesdropped : Io :=
  let io1 := (V2.join_room three_connected "sockA" "room1" (JStr "alice") None).1 in
  let io2 := (V2.join_room io1 "sockB" "room1" (JStr "bob") None).1 in
  (V2.join_room io2 "sockC" "sockA" (JStr "carol") None).1.

(** alice and bob in ["room1"], nobody else. *)
Definition alice_and_bob : Io :=
  let io1 := (V2.join_room two_connected "sockA" "room1" (JStr "alice") None).1 in
  (V2.join_room io1 "sockB" "room1" (JStr "bob") None).1.

Definition offer_to_alice : jsobj :=
  [("roomId", JStr "room1"); ("targetUserId", JStr "alice");
   ("signal", JObj [("type", JStr "offer")])].

Definition offer_to_dave : jsobj :=
  [("roomId", JStr "room1"); ("targetUserId", JStr "dave");
   ("signal", JObj [("type", JStr "offer")])].

Definition chat_hello : jsobj :=
  [("roomId", JStr "room1"); ("userName", JStr "Bob");
   ("message", JStr "hello"); ("timestamp", JNum 1700000000)].

Definition forged_chat_hello : jsobj :=
  [("roomId", JStr "room1"); ("userId", JStr "alice"); ("userName", JStr "Alice");
   ("message", JStr "hello"); ("timestamp", JNum 1700000000)].

End Scenarios.

Module LifeScenarios.
Import Lifecycle.


Definition room : string := "AAAAAAAAAA".















End LifeScenarios.

(** ** The lifecycle handlers as one service *)

Module Service.
Import Lifecycle.




(** What identifies a participant, as opposed to [leftAt]. *)
Definition ident (p : Participant) : string * string * Z * bool :=
  (userId p, userName p, joinedAt p, isHost p).











End Service.

Module MoreScenarios.
Import Lifecycle Service LifeScenarios.






End MoreScenarios.

(** ** Presence data *)

Module Presence.
Import Signaling.

(** The display data carries no [userId] property of its own. *)
Definition plain_data (udata : option jsobj) : Prop :=
  match udata with
  | Some props => Forall (fun kv => kv.1 <> "userId") props
  | None => True
  end.

(** [sockB] posts to ["room1"] without ever having joined it. *)
Definition outsider_chat : Io :=
  (V2.join_room Scenarios.two_connected "sockA" "room1" (JStr "alice") None).1.


End Presence.

(** ** Origin checks (the CORS callbacks of both variants) *)

Module Cors.

(** [s.includes(sub)] *)
Fixpoint includes (s sub : string) : bool :=
  if String.prefix sub s then true
  else match s with
       | "" => false
       | String _ r => includes r sub
       end.

(** [list.includes(origin)] on an array of strings. *)
Definition listed (l : list string) (origin : string) : bool :=
  existsb (String.eqb origin) l.

(** [!origin]: the header is absent or empty. *)
Definition no_origin (origin : option string) : bool :=
  match origin with Some o => negb (Js.truthy_str o) | None => true end.

(** First variant.  [allowedOrigins] is [true] ([None] here) when
    [ALLOWED_ORIGINS] is not set, and the array of its comma-separated
    parts otherwise. *)
Module V1.

(** The [origin] callback of the HTTP middleware: [true] for
    [callback(null, true)], [false] for the error. *)
Definition http_origin (allowedOrigins : option (list string))
    (origin : option string) : bool :=
  if no_origin origin then true
  else
    let o := default "" origin in
    if String.eqb o "http://localhost:5173" || String.eqb o "http://localhost:5174"
    then true
    else match allowedOrigins with
         | None => true
         | Some l =>
             if listed l o then true
             else if includes o "localhost" || includes o "127.0.0.1"
                     || includes o "ngrok" || includes o "loca.lt"
             then true
             else false
         end.

(** The [origin] callback given to Socket.IO. *)
Definition io_origin (allowedOrigins : option (list string))
    (origin : option string) : bool :=
  if no_origin origin then true
  else
    let o := default "" origin in
    if String.eqb o "http://localhost:5173" || String.eqb o "http://localhost:5174"
    then true
    else match allowedOrigins with
         | None => true
         | Some l =>
             if listed l o then true
             else if includes o "localhost" || includes o "127.0.0.1"
                     || includes o "ngrok" || includes o "loca.lt"
             then true
             else true
         end.

End V1.

(** Second variant.  [production] is [NODE_ENV === 'production'];
    [allowedOrigins] is always an array. *)
Module V2.

Definition http_origin (production : bool) (allowedOrigins : list string)
    (origin : option string) : bool :=
  if no_origin origin then true
  else
    let o := default "" origin in
    if negb production && (includes o "localhost" || includes o "127.0.0.1")
    then true
    else if (0 <? length allowedOrigins)%nat && listed allowedOrigins o then true
    else if includes o "railway.app" || includes o "up.railway.app" then true
    else if includes o "ngrok" || includes o "loca.lt" then true
    else false.

Definition io_origin (production : bool) (allowedOrigins : list string)
    (origin : option string) : bool :=
  if no_origin origin then true
  else
    let o := default "" origin in
    if negb production && (includes o "localhost" || includes o "127.0.0.1")
    then true
    else if (0 <? length allowedOrigins)%nat && listed allowedOrigins o then true
    else if includes o "railway.app" || includes o "ngrok" || includes o "loca.lt"
    then true
    else true.

End V2.

(** The substrings that open the HTTP check of the first variant, and of
    the second one in production. *)
Definition v1_markers : list string := ["localhost"; "127.0.0.1"; "ngrok"; "loca.lt"].
Definition v2_markers : list string := ["railway.app"; "ngrok"; "loca.lt"].

End Cors.

(** ** Draws that lead to a given code *)

Module GenInverse.



End GenInverse.

(** ** Chat history (ChatMessage.getByRoom and /api/chat-history) *)

Module ChatHistory.

(** A document of the [chatMessages] collection, as [getByRoom] returns
    it ([{ id: doc.id, ...doc.data() }]). *)
Record ChatDoc := mkChatDoc {
  id : string;
  roomId : string;
  userId : string;
  userName : string;
  message : string;
  type : string;
  timestamp : Z
}.

(** [orderBy('timestamp', 'desc')] *)
Definition newer_first (a b : ChatDoc) : Prop := (timestamp b <= timestamp a)%Z.

#[global] Instance newer_first_dec : RelDecision newer_first.
Proof. intros a b. unfold newer_first. apply _. Defined.

#[global] Instance newer_first_trans : Transitive newer_first.
Proof. intros a b c. unfold newer_first. lia. Qed.

#[global] Instance newer_first_total : Total newer_first.
Proof. intros a b. unfold newer_first. lia. Qed.

(** [ChatMessage.getByRoom(roomId)]: the documents of the room, newest
    first, or [None] when the query throws.  Documents with the same
    timestamp come in the order the merge leaves them. *)
Definition getByRoom (answers : bool) (collection : list ChatDoc) (room : string)
    : option (list ChatDoc) :=
  if answers
  then Some (merge_sort newer_first
               (List.filter (fun d => String.eqb (roomId d) room) collection))
  else None.

(** The [messages] of the answer of [GET /api/chat-history/:roomId] (its
    status is 200 on both paths). *)
Definition chat_history (answers : bool) (collection : list ChatDoc) (room : string)
    : list ChatDoc :=
  match getByRoom answers collection room with
  | Some messages => firstn 100 messages
  | None => []
  end.

(** Three messages of ["room1"] and one of ["room2"]. *)
Definition sample_chat : list ChatDoc :=
  [mkChatDoc "m1" "room1" "alice" "Alice" "hi" "text" 10;
   mkChatDoc "m2" "room2" "carol" "Carol" "hey" "text" 20;
   mkChatDoc "m3" "room1" "bob" "Bob" "hello" "text" 30;
   mkChatDoc "m4" "room1" "alice" "Alice" "bye" "text" 20].

End ChatHistory.

(** ** Transcript routes (routes/transcriptRoute.js) *)

Module Transcripts.
Import Signaling.










(** *** The router *)

Inductive Method := GET | POST | DELETE.

Inductive Seg :=
| Lit (s : string)
| Param (name : string).

Inductive Handler := HSave | HGetRoom | HDeleteRoom | HExport | HHealth.

Definition method_eqb (a b : Method) : bool :=
  match a, b with
  | GET, GET | POST, POST | DELETE, DELETE => true
  | _, _ => false
  end.

Definition lower_ascii (c : ascii) : ascii :=
  let n := nat_of_ascii c in
  if ((65 <=? n)%nat && (n <=? 90)%nat) then ascii_of_nat (n + 32) else c.

Fixpoint lower (s : string) : string :=
  match s with
  | "" => ""
  | String c r => String (lower_ascii c) (lower r)
  end.

(** One segment of a request path against one segment of a route: a
    literal is compared without regard to case, a parameter takes any
    non-empty segment. *)
Definition seg_matches (p : Seg) (s : string) : bool :=
  match p with
  | Lit l => String.eqb (lower l) (lower s)
  | Param _ => Js.truthy_str s
  end.

Fixpoint matches (pat : list Seg) (path : list string) : bool :=
  match pat, path with
  | [], [] => true
  | p :: pat', s :: path' => seg_matches p s && matches pat' path'
  | _, _ => false
  end.

(** The routes in the order of their registration. *)
Definition routes : list (Method * list Seg * Handler) :=
  [ (POST, [Lit "save"], HSave);
    (GET, [Param "roomId"], HGetRoom);
    (DELETE, [Param "roomId"], HDeleteRoom);
    (GET, [Param "roomId"; Lit "export"], HExport);
    (GET, [Lit "health"], HHealth) ].

(** The handler that answers a request: the first route of the method
    that matches the path (no handler passes the request on). *)
Definition dispatch (m : Method) (path : list string) : option Handler :=
  match List.find (fun r => method_eqb r.1.1 m && matches r.1.2 path) routes with
  | Some r => Some r.2
  | None => None
  end.



End Transcripts.

(** * Properties *)

Section GenProps.
Import Gen.









End GenProps.

Section SignalingProps.
Import Signaling.

Lemma find_head_filter {A} (p : A -> bool) (l : list A) :
  List.find p l = head (List.filter p l).
Proof.
  induction l as [|x l IH]; simpl; [reflexivity |].
  destruct (p x); [reflexivity | exact IH].
Qed.

Lemma in_other_ids (io : Io) (self roomId id : string) :
  In id (other_ids io self roomId) ->
  In id (clients_of io roomId) /\ id <> self.
Proof.
  unfold other_ids. intros H.
  apply list_elem_of_In, list_elem_of_filter in H as [Hne Hin].
  split; [now apply list_elem_of_In | exact Hne].
Qed.

(** The snapshot of the second variant: every entry is the entry of a
    member of the room other than the querying connection, and its
    [userId] property is truthy. *)
Lemma v2_others_sound (io : Io) (self roomId : string) (user : jsobj) :
  In user (V2.others io self roomId) ->
  truthy (obj_get user "userId") = true /\
  exists id, In id (clients_of io roomId) /\ id <> self /\ user = V2.entry io id.
Proof.
  unfold V2.others. intros H.
  apply filter_In in H as [Hin Ht]. split; [exact Ht |].
  apply in_map_iff in Hin as (id & <- & Hid).
  apply in_other_ids in Hid as [Hc Hne]. eauto.
Qed.

(** A connection that has not run [join-room] (no [userId], no
    [userData]) contributes no entry to the snapshot of the second
    variant. *)
Lemma v2_unjoined_entry_dropped (io : Io) (id : string) :
  sockets io !! id = Some (mkSocket JUndefined None) ->
  truthy (obj_get (V2.entry io id) "userId") = false.
Proof. intros H. unfold V2.entry. now rewrite H. Qed.

(** The snapshot of the first variant is built from members of the room
    other than the querying connection. *)
Lemma v1_others_sound (io : Io) (self roomId : string) (l : list jsobj) (user : jsobj) :
  V1.others io self roomId = Some l ->
  In user l ->
  exists id, In id (clients_of io roomId) /\ id <> self /\ V1.entry io id = Some user.
Proof.
  unfold V1.others. intros Hl Hu.
  apply mapM_Some_1 in Hl.
  apply list_elem_of_In, list_elem_of_lookup in Hu as [i Hi].
  destruct (Forall2_lookup_r _ _ _ _ _ Hl Hi) as (id & Hid & He).
  assert (Hin : In id (other_ids io self roomId)).
  { apply list_elem_of_In, list_elem_of_lookup. eauto. }
  apply in_other_ids in Hin as [Hc Hne]. eauto.
Qed.

(** C2: in the first server variant the [room-users] snapshot sent to a
    joiner lists a connection of the room whose [userId] is unset (here
    [sockA], which joined ["room1"] without an identity), where the
    second variant filters that entry out; the querying connection itself
    is left out by both. *)
Theorem v1_snapshot_keeps_unidentified_connection :
  socket_userId Scenarios.silent_member "sockA" = JUndefined /\
  clients_of Scenarios.silent_member "room1" = ["sockA"] /\
  (V1.join_room Scenarios.silent_member "sockB" "room1" (JStr "bob")
     Scenarios.bob_data).2
  = [mkEmit "sockA" (UserConnected [("userId", JStr "bob"); ("name", JStr "Bob")]);
     mkEmit "sockB" (RoomUsers [[("userId", JUndefined)]])] /\
  (V2.join_room Scenarios.silent_member "sockB" "room1" (JStr "bob")
     Scenarios.bob_data).2
  = [mkEmit "sockA" (UserConnected [("userId", JStr "bob"); ("name", JStr "Bob")]);
     mkEmit "sockB" (RoomUsers [])].
Proof. vm_compute. repeat split. Qed.

(** The same for a connection that never emitted [join-room]: it sits in
    the room Socket.IO names after its id, and a joiner of that room gets
    it in the snapshot of the first variant. *)
Lemma v1_snapshot_keeps_unjoined_connection :
  (V1.join_room Scenarios.two_connected "sockB" "sockA" (JStr "bob")
     Scenarios.bob_data).2
  = [mkEmit "sockA" (UserConnected [("userId", JStr "bob"); ("name", JStr "Bob")]);
     mkEmit "sockB" (RoomUsers [[("userId", JUndefined)]])].
Proof. vm_compute. reflexivity. Qed.

(** C7, as stated, fails: [io.to(targetSocket)] addresses the room named
    by the target's connection id, and [sockC], which joined that room,
    receives the offer that bob sent to alice in ["room1"], although
    [sockC] is not in ["room1"] and is bound to another user id. *)
Lemma signal_reaches_guest_of_private_room :
  signal Scenarios.eavesdropped "sockB" Scenarios.offer_to_alice
  = [mkEmit "sockA" (SignalMsg (JStr "bob") (JObj [("type", JStr "offer")]));
     mkEmit "sockC" (SignalMsg (JStr "bob") (JObj [("type", JStr "offer")]))] /\
  clients_of Scenarios.eavesdropped "room1" = ["sockA"; "sockB"] /\
  socket_userId Scenarios.eavesdropped "sockC" = JStr "carol".
Proof. vm_compute. repeat split. Qed.

(** C7, amended: when exactly one connection [t] of the given room is
    bound to [targetUserId], [t]'s id is not empty and the room named by
    that id has [t] as its only member, the signal and the sender's user id are delivered to [t]
    and to no other connection; when no connection of the room is bound
    to [targetUserId], nothing is delivered. *)
Theorem signal_relay_exact (io : Io) (self : string) (m : jsobj) :
  let clients := clients_of_val io (obj_get m "roomId") in
  let target := obj_get m "targetUserId" in
  (List.filter (bound_to io target) clients = [] -> signal io self m = []) /\
  (forall t : string,
      List.filter (bound_to io target) clients = [t] ->
      Js.truthy_str t = true ->
      clients_of io t = [t] ->
      signal io self m
      = [mkEmit t (SignalMsg (socket_userId io self) (obj_get m "signal"))]).
Proof.
  intros clients target. unfold signal, find_target.
  fold clients target. rewrite find_head_filter. split.
  - intros ->. reflexivity.
  - intros t -> Ht Hroom. simpl. rewrite Ht.
    unfold io_to_emit. rewrite Hroom. reflexivity.
Qed.

Lemma signal_relay_exact_witness :
  signal Scenarios.alice_and_bob "sockB" Scenarios.offer_to_dave = [] /\
  signal Scenarios.alice_and_bob "sockB" Scenarios.offer_to_alice
  = [mkEmit "sockA" (SignalMsg (JStr "bob") (JObj [("type", JStr "offer")]))].
Proof.
  split.
  - apply (proj1 (signal_relay_exact Scenarios.alice_and_bob "sockB"
                    Scenarios.offer_to_dave)).
    vm_compute. reflexivity.
  - apply (proj2 (signal_relay_exact Scenarios.alice_and_bob "sockB"
                    Scenarios.offer_to_alice) "sockA");
      vm_compute; reflexivity.
Defined.

Lemma signal_sender (io : Io) (self : string) (m : jsobj) (e : Emit) :
  In e (signal io self m) -> sender_of (msg e) = Some (socket_userId io self).
Proof.
  unfold signal.
  destruct (find_target _ _ _) as [t|]; [| intros []].
  destruct (Js.truthy_str t); [| intros []].
  unfold io_to_emit. intros He.
  apply in_map_iff in He as (id & <- & _). reflexivity.
Qed.

Lemma send_message_sender (io : Io) (self : string) (m : jsobj) (e : Emit) :
  In e (send_message io self m) -> sender_of (msg e) = Some (socket_userId io self).
Proof.
  unfold send_message.
  destruct (room_key _) as [r|]; [| intros []].
  unfold socket_to_emit. intros He.
  apply in_map_iff in He as (id & <- & _). reflexivity.
Qed.

(** [join-room] binds the user id it is given to the connection, in both
    variants. *)
Lemma join_bind_userId (io : Io) (self roomId : string) (uid : jsval)
    (udata : option jsobj) :
  socket_userId (join_bind io self roomId uid udata).1 self = uid.
Proof.
  unfold socket_userId, join_bind. cbn [fst sockets].
  now rewrite lookup_insert_eq.
Qed.

Lemma join_room_state (io : Io) (self roomId : string) (uid : jsval)
    (udata : option jsobj) :
  (V1.join_room io self roomId uid udata).1 = (join_bind io self roomId uid udata).1 /\
  (V2.join_room io self roomId uid udata).1 = (join_bind io self roomId uid udata).1.
Proof.
  unfold V1.join_room, V2.join_room.
  destruct (join_bind io self roomId uid udata) as [io2 announced].
  split; [destruct (V1.others io2 self roomId) |]; reflexivity.
Qed.

(** C10: the [userId] field of every relayed signal and of every
    broadcast chat message is the user id bound to the sending connection,
    which is the one its [join-room] was given; two [signal] or
    [send-message] payloads that differ only in client-supplied identity
    properties reach the same connections with the same [userId] field. *)
Theorem sender_identity_from_connection (io : Io) (self : string) (m1 m2 : jsobj) :
  same_but_identity m1 m2 ->
  (forall e, In e (signal io self m1) \/ In e (send_message io self m1) ->
             sender_of (msg e) = Some (socket_userId io self)) /\
  (forall roomId uid udata e,
      let joined := (join_bind io self roomId uid udata).1 in
      In e (signal joined self m1) \/ In e (send_message joined self m1) ->
      sender_of (msg e) = Some uid) /\
  signal io self m1 = signal io self m2 /\
  map attributed (send_message io self m1) = map attributed (send_message io self m2).
Proof.
  intros Hsame. split; [| split; [| split]].
  - intros e [He | He]; [eapply signal_sender | eapply send_message_sender]; eauto.
  - intros roomId uid udata e joined He.
    rewrite <- (join_bind_userId io self roomId uid udata). fold joined.
    destruct He as [He | He];
      [eapply signal_sender | eapply send_message_sender]; eauto.
  - unfold signal.
    rewrite (Hsame "roomId"), (Hsame "targetUserId"), (Hsame "signal");
      [reflexivity | discriminate ..].
  - unfold send_message. rewrite (Hsame "roomId"); [| discriminate ..].
    destruct (room_key _); [| reflexivity].
    unfold socket_to_emit. rewrite !map_map. reflexivity.
Qed.

Lemma sender_identity_from_connection_witness :
  same_but_identity Scenarios.chat_hello Scenarios.forged_chat_hello /\
  map attributed (send_message Scenarios.alice_and_bob "sockB" Scenarios.chat_hello)
  = map attributed (send_message Scenarios.alice_and_bob "sockB"
                      Scenarios.forged_chat_hello).
Proof.
  assert (H : same_but_identity Scenarios.chat_hello Scenarios.forged_chat_hello).
  { intros k Hid Hname. unfold Scenarios.chat_hello, Scenarios.forged_chat_hello.
    cbn [obj_get].
    destruct (String.eqb_spec "roomId" k); [reflexivity |].
    destruct (String.eqb_spec "userId" k); [congruence |].
    destruct (String.eqb_spec "userName" k); [congruence |].
    reflexivity. }
  split; [exact H |].
  exact (proj2 (proj2 (proj2 (sender_identity_from_connection
                                Scenarios.alice_and_bob "sockB" _ _ H)))).
Defined.

End SignalingProps.

Section LifecycleProps.
Import Lifecycle.

Variable reachable : nat -> bool.

Lemma find_doc_Some {A} (p : A -> bool) (l : list A) (i : nat) (x : A) :
  find_doc p l = Some (i, x) -> l !! i = Some x /\ p x = true.
Proof.
  revert i. induction l as [|y l IH]; intros i; simpl; [discriminate |].
  destruct (p y) eqn:Hy.
  - intros [= <- <-]. auto.
  - destruct (find_doc p l) as [[j z]|]; simpl; [| discriminate].
    intros [= <- <-]. simpl. apply IH. reflexivity.
Qed.

(** What the lookup shared by join, end and get returns: the first
    document with the code when the store answers and has one, else the
    record of the fallback map. *)
Lemma find_meeting_eq (code : string) (w : World) :
  find_meeting reachable code w =
  (tick w,
   Some (match (if reachable (calls w)
                then find_doc (by_code code) (store w) else None) with
         | Some (i, m) => Some (mkFound (Some i) m)
         | None => mkFound None <$> inMemoryRooms w !! code
         end)).
Proof.
  unfold find_meeting, bind, try_catch, ret, gets, Meeting_getByRoomCode.
  destruct (reachable (calls w)); [| reflexivity].
  destruct (find_doc (by_code code) (store w)) as [[i m]|]; reflexivity.
Qed.

Lemma find_meeting_inv (code : string) (w w1 : World) (f : Found) :
  find_meeting reachable code w = (w1, Some (Some f)) ->
  w1 = tick w /\
  match doc f with
  | Some i => reachable (calls w) = true /\ store w !! i = Some (obj f)
  | None => inMemoryRooms w !! code = Some (obj f)
  end.
Proof.
  rewrite find_meeting_eq. intros [= <- Hf]. split; [reflexivity |].
  destruct (reachable (calls w)) eqn:Hr.
  - destruct (find_doc (by_code code) (store w)) as [[i m]|] eqn:Hd.
    + injection Hf as <-. simpl. split; [reflexivity |].
      now apply find_doc_Some in Hd.
    + destruct (inMemoryRooms w !! code) as [m|]; [| discriminate].
      injection Hf as <-. reflexivity.
  - destruct (inMemoryRooms w !! code) as [m|]; [| discriminate].
    injection Hf as <-. reflexivity.
Qed.

Lemma active_push (p : Participant) (m : Meeting) :
  leftAt p = None ->
  activeParticipants (push_participant p m) = S (activeParticipants m).
Proof.
  intros Hp. unfold activeParticipants, push_participant. simpl.
  rewrite List.filter_app, length_app. simpl.
  unfold not_left at 2. rewrite Hp. simpl. lia.
Qed.

Lemma password_check_passes (pw : option string) (m : Meeting) :
  password (settings m) = "" \/ pw = Some (password (settings m)) ->
  Js.truthy_str (password (settings m))
  && negb (bool_decide (Some (password (settings m)) = pw)) = false.
Proof.
  intros [-> | ->]; [reflexivity |].
  rewrite bool_decide_eq_true_2 by reflexivity. apply andb_false_r.
Qed.

(** A join served by the authoritative store appends the participant
    once to the stored document. *)
Lemma join_store_appends_once (now : Z) (uid code username : string)
    (pw : option string) (w w1 : World) (i : nat) (m : Meeting) :
  find_meeting reachable code w = (w1, Some (Some (mkFound (Some i) m))) ->
  admits code username pw m ->
  reachable (calls w1) = true ->
  let p := mkParticipant uid username now None false None None in
  let res := join reachable now uid code username pw w in
  store res.1 !! i = Some (push_participant p m) /\
  inMemoryRooms res.1 = inMemoryRooms w /\
  activeParticipants (push_participant p m) = S (activeParticipants m).
Proof.
  intros Hf (Hc & Hu & Ha & Hp & Hcap) Hr p res.
  destruct (find_meeting_inv _ _ _ _ Hf) as [-> [_ Hi]]. simpl in Hi.
  subst res. unfold join, handle. rewrite Hc, Hu. cbn [negb orb].
  unfold bind. rewrite Hf. cbn [negb].
  rewrite Ha, (password_check_passes _ _ Hp). cbn [negb].
  destruct (Z.leb_spec (maxParticipants (settings m))
              (Z.of_nat (activeParticipants m))); [lia |].
  unfold bind, try_catch, Meeting_update, modify, ret. simpl. simpl in Hr.
  rewrite Hr.
  rewrite bool_decide_eq_true_2 by (eapply lookup_lt_Some; exact Hi).
  simpl. split; [| split; [reflexivity | now apply active_push]].
  rewrite list_lookup_alter_eq, Hi. reflexivity.
Qed.

(** A join served by the fallback map appends the participant twice to
    the map's record: once through [meeting], which is that record, and
    once more in the [catch] block of the failed store update. *)
Lemma join_fallback_appends_twice (now : Z) (uid code username : string)
    (pw : option string) (w w1 : World) (m : Meeting) :
  find_meeting reachable code w = (w1, Some (Some (mkFound None m))) ->
  admits code username pw m ->
  let p := mkParticipant uid username now None false None None in
  let res := join reachable now uid code username pw w in
  inMemoryRooms res.1 !! code = Some (push_participant p (push_participant p m)) /\
  store res.1 = store w /\
  activeParticipants (push_participant p (push_participant p m))
  = S (S (activeParticipants m)).
Proof.
  intros Hf (Hc & Hu & Ha & Hp & Hcap) p res.
  destruct (find_meeting_inv _ _ _ _ Hf) as [-> Hi]. simpl in Hi.
  subst res. unfold join, handle. rewrite Hc, Hu. cbn [negb orb].
  unfold bind. rewrite Hf. cbn [negb].
  rewrite Ha, (password_check_passes _ _ Hp). cbn [negb].
  destruct (Z.leb_spec (maxParticipants (settings m))
              (Z.of_nat (activeParticipants m))); [lia |].
  unfold bind, try_catch, Meeting_update, modify, ret. simpl.
  rewrite lookup_insert_eq. simpl. rewrite lookup_insert_eq.
  split; [reflexivity | split; [reflexivity |]].
  now rewrite !active_push.
Qed.





Lemma find_doc_alter {A} (p : A -> bool) (g : A -> A) (l : list A) (i : nat) (x : A) :
  (forall y, p (g y) = p y) ->
  find_doc p l = Some (i, x) ->
  find_doc p (alter g i l) = Some (i, g x).
Proof.
  intros Hg. revert i. induction l as [|y l IH]; intros i; simpl; [discriminate |].
  destruct (p y) eqn:Hy.
  - intros [= <- <-]. change (alter g 0%nat (y :: l)) with (g y :: l).
    simpl. now rewrite Hg, Hy.
  - destruct (find_doc p l) as [[j z]|] eqn:Hd; simpl; [| discriminate].
    intros [= <- <-]. change (alter g (S j) (y :: l)) with (y :: alter g j l).
    simpl. rewrite Hy, (IH j) by reflexivity. reflexivity.
Qed.

Lemma by_code_patch (code : string) (p : Patch) (m : Meeting) :
  by_code code (apply_patch p m) = by_code code m.
Proof. destruct p; reflexivity. Qed.

(** The last active participant leaves a meeting that the authoritative
    store holds and serves: the document is marked ended, and [get] then
    answers NotFound. *)
Lemma last_leave_ends_stored_meeting (now : Z) (roomId uid : string)
    (w : World) (i k : nat) (m : Meeting) :
  (forall n, (calls w <= n <= calls w + 3)%nat -> reachable n = true) ->
  find_doc (by_code roomId) (store w) = Some (i, m) ->
  find_participant uid (participants m) = Some k ->
  activeParticipants (mark_left k now m) = 0%nat ->
  let res := leave reachable now roomId uid w in
  res.2 = Left /\
  store res.1 !! i = Some (set_ended now (mark_left k now m)) /\
  inMemoryRooms res.1 = inMemoryRooms w /\
  (get reachable roomId res.1).2 = NotFound.
Proof.
  intros Hr Hd Hk H0 res.
  assert (Hi : store w !! i = Some m) by (now apply find_doc_Some in Hd).
  assert (Hlen : (i < length (store w))%nat) by (eapply lookup_lt_Some; exact Hi).
  assert (E : res =
    (mkWorld (alter (set_ended now) i
                (alter (apply_patch (PatchParticipants
                          (participants (mark_left k now m)))) i (store w)))
             (inMemoryRooms w) (calls w + 3), Left)).
  { subst res. unfold leave, handle, bind, try_catch, Meeting_getByRoomCode.
    rewrite (Hr (calls w)) by lia. rewrite Hd. simpl. rewrite Hk.
    unfold Meeting_update, ret. simpl.
    rewrite (Hr (S (calls w))) by lia.
    rewrite bool_decide_eq_true_2 by exact Hlen. simpl.
    rewrite H0. simpl.
    rewrite (Hr (S (S (calls w)))) by lia.
    rewrite bool_decide_eq_true_2 by (rewrite length_alter; exact Hlen).
    simpl. unfold tick, set_store. simpl.
    repeat f_equal. lia. }
  rewrite E. cbn [fst snd store inMemoryRooms calls]. split; [reflexivity |].
  assert (Hdoc : alter (apply_patch (PatchParticipants
                          (participants (mark_left k now m)))) i (store w) !! i
                 = Some (mark_left k now m)).
  { rewrite list_lookup_alter_eq, Hi. reflexivity. }
  split; [| split; [reflexivity |]].
  - rewrite list_lookup_alter_eq, Hdoc. reflexivity.
  - unfold get, handle, bind. rewrite find_meeting_eq.
    cbn [fst snd store inMemoryRooms calls].
    rewrite (Hr (calls w + 3)%nat) by lia.
    erewrite (find_doc_alter _ (set_ended now)); [reflexivity | reflexivity |].
    erewrite find_doc_alter; [reflexivity | apply by_code_patch | exact Hd].
Qed.

(** The last active participant leaves a meeting of the fallback map
    while the authoritative store is unreachable: the record is deleted,
    and [get] then answers NotFound. *)
Lemma last_leave_deletes_fallback_record (now : Z) (roomId uid : string)
    (w : World) (k : nat) (m : Meeting) :
  reachable (calls w) = false ->
  reachable (S (calls w)) = false ->
  inMemoryRooms w !! roomId = Some m ->
  find_participant uid (participants m) = Some k ->
  activeParticipants (mark_left k now m) = 0%nat ->
  let res := leave reachable now roomId uid w in
  res.2 = Left /\
  inMemoryRooms res.1 !! roomId = None /\
  store res.1 = store w /\
  (get reachable roomId res.1).2 = NotFound.
Proof.
  intros Hr Hr' Hm Hk H0 res.
  assert (E : res = (set_rooms (delete roomId (inMemoryRooms w)) (tick w), Left)).
  { subst res. unfold leave, handle, bind, try_catch, Meeting_getByRoomCode.
    rewrite Hr. unfold leave_in_memory, modify. simpl.
    rewrite Hm, Hk, H0. reflexivity. }
  rewrite E. simpl. split; [reflexivity |].
  split; [apply lookup_delete_eq | split; [reflexivity |]].
  unfold get, handle, bind. rewrite find_meeting_eq. simpl.
  rewrite Hr'. simpl. now rewrite lookup_delete_eq.
Qed.

(** When the store answers the lookup of [leave] with no document, the
    handler is done: the fallback map is consulted only in the [catch]
    block, which a [null] answer does not enter. *)
Lemma leave_without_document_is_noop (now : Z) (roomId uid : string) (w : World) :
  reachable (calls w) = true ->
  find_doc (by_code roomId) (store w) = None ->
  leave reachable now roomId uid w = (tick w, Left).
Proof.
  intros Hr Hd. unfold leave, handle, bind, try_catch, Meeting_getByRoomCode.
  now rewrite Hr, Hd.
Qed.





End LifecycleProps.

Section LifecycleRuns.
Import Lifecycle LifeScenarios.










End LifecycleRuns.

Section ServiceProps.
Import Lifecycle Service.

Variable reachable : nat -> bool.

Lemma ident_set_leftAt (now : Z) (p : Participant) : ident (set_leftAt now p) = ident p.
Proof. reflexivity. Qed.














































Lemma find_doc_alter_none {A} (p : A -> bool) (g : A -> A) (l : list A) (i : nat) :
  (forall y, p (g y) = p y) -> find_doc p l = None -> find_doc p (alter g i l) = None.
Proof.
  intros Hg. revert i. induction l as [|y l IH]; intros i H; [now destruct i |].
  simpl in H. destruct (p y) eqn:Hy; [discriminate |].
  destruct (find_doc p l) as [[j z]|] eqn:Hd; [discriminate |].
  destruct i as [|i].
  - change (alter g 0%nat (y :: l)) with (g y :: l). simpl. now rewrite Hg, Hy, Hd.
  - change (alter g (S i) (y :: l)) with (y :: alter g i l). simpl.
    now rewrite Hy, IH.
Qed.





End ServiceProps.

Section ServiceRuns.
Import Lifecycle Service LifeScenarios MoreScenarios.









End ServiceRuns.

Section RegistryProps.
Import Signaling Presence.

Lemma clients_after_join (io : Io) (self roomId r : string) :
  clients_of (socket_join io self roomId) r =
  if decide (r = roomId)
  then (if bool_decide (self ∈ clients_of io roomId)
        then clients_of io roomId else clients_of io roomId ++ [self])
  else clients_of io r.
Proof.
  unfold socket_join. destruct (bool_decide (self ∈ clients_of io roomId)) eqn:Hin.
  - destruct (decide (r = roomId)) as [-> |]; reflexivity.
  - unfold clients_of at 1. simpl.
    destruct (decide (r = roomId)) as [-> | Hne].
    + now rewrite lookup_insert_eq.
    + now rewrite lookup_insert_ne by congruence.
Qed.

Lemma clients_after_bind (io : Io) (self roomId : string) (uid : jsval)
    (udata : option jsobj) (r : string) :
  clients_of (join_bind io self roomId uid udata).1 r
  = clients_of (socket_join io self roomId) r.
Proof. reflexivity. Qed.

(** X12: [join-room] (either variant) puts the connection in the room and
    removes nobody from any room: a connection that joins a second room
    stays in the first.  The only membership it adds is the joiner's, a
    room without duplicates stays so (joining twice lists the connection
    once), and no other connection's identity is touched. *)
Theorem join_room_keeps_memberships (io : Io) (self roomId : string) (uid : jsval)
    (udata : option jsobj) :
  let io' := (join_bind io self roomId uid udata).1 in
  In self (clients_of io' roomId) /\
  (forall r id, In id (clients_of io r) -> In id (clients_of io' r)) /\
  (forall r id, In id (clients_of io' r) -> In id (clients_of io r) \/ (id = self /\ r = roomId)) /\
  (forall r, NoDup (clients_of io r) -> NoDup (clients_of io' r)) /\
  (forall id, id <> self -> sockets io' !! id = sockets io !! id).
Proof.
  intros io'. subst io'. repeat split.
  - rewrite clients_after_bind, clients_after_join, decide_True by reflexivity.
    destruct (bool_decide (self ∈ clients_of io roomId)) eqn:Hin.
    + apply bool_decide_eq_true in Hin. now apply list_elem_of_In.
    + apply in_or_app. right. now left.
  - intros r id Hid. rewrite clients_after_bind, clients_after_join.
    destruct (decide (r = roomId)) as [-> |]; [| exact Hid].
    destruct (bool_decide _); [exact Hid | apply in_or_app; now left].
  - intros r id. rewrite clients_after_bind, clients_after_join.
    destruct (decide (r = roomId)) as [-> |]; [| now left].
    destruct (bool_decide _); [now left |].
    intros Hid. apply in_app_or in Hid as [Hid | [<- | []]]; auto.
  - intros r Hnd. rewrite clients_after_bind, clients_after_join.
    destruct (decide (r = roomId)) as [-> |]; [| exact Hnd].
    destruct (bool_decide (self ∈ clients_of io roomId)) eqn:Hin; [exact Hnd |].
    apply bool_decide_eq_false in Hin.
    apply NoDup_app. repeat split; [exact Hnd | | apply NoDup_singleton].
    intros x Hx Hs. apply list_elem_of_singleton in Hs as ->. contradiction.
  - intros id Hne. unfold join_bind. simpl. rewrite lookup_insert_ne by congruence.
    unfold socket_join. now destruct (bool_decide _).
Qed.

Lemma obj_get_set_eq (o : jsobj) (k : string) (v : jsval) :
  obj_get (obj_set o k v) k = v.
Proof.
  induction o as [|[k' v'] o IH]; simpl; [now rewrite String.eqb_refl |].
  destruct (String.eqb_spec k' k) as [-> | Hne]; simpl.
  - now rewrite String.eqb_refl.
  - destruct (String.eqb_spec k' k); [contradiction | exact IH].
Qed.

Lemma obj_get_set_ne (o : jsobj) (k k' : string) (v : jsval) :
  k' <> k -> obj_get (obj_set o k' v) k = obj_get o k.
Proof.
  intros Hne. induction o as [|[k0 v0] o IH]; simpl.
  - destruct (String.eqb_spec k' k); [contradiction | reflexivity].
  - destruct (String.eqb_spec k0 k') as [-> | H0]; simpl.
    + destruct (String.eqb_spec k' k); [contradiction | reflexivity].
    + destruct (String.eqb_spec k0 k); [reflexivity | exact IH].
Qed.

Lemma find_over_app {A} (p : A -> bool) (l1 l2 : list A) :
  List.find p (l1 ++ l2)
  = match List.find p l1 with Some x => Some x | None => List.find p l2 end.
Proof.
  induction l1 as [|x l1 IH]; simpl; [reflexivity |].
  destruct (p x); [reflexivity | exact IH].
Qed.

(** The value a list of properties gives to [k]: that of the last
    property named [k], if there is one. *)
Lemma obj_get_spread (props : jsobj) (o : jsobj) (k : string) :
  obj_get (spread o (Some props)) k
  = match List.find (fun kv => String.eqb kv.1 k) (rev props) with
    | Some kv => kv.2
    | None => obj_get o k
    end.
Proof.
  unfold spread. revert o. induction props as [|[k' v] props IH]; intros o; [reflexivity |].
  simpl. rewrite IH, find_over_app.
  destruct (List.find (fun kv => String.eqb kv.1 k) (rev props)) as [kv|]; [reflexivity |].
  simpl. destruct (String.eqb_spec k' k) as [-> | Hne].
  - apply obj_get_set_eq.
  - now apply obj_get_set_ne.
Qed.

(** X13: the [userId] of the object built by [{ userId, ...userData }],
    which is what [user-connected] announces and what the snapshot lists,
    is the last [userId] property of the display data when it has one, and
    the user id given to [join-room] only otherwise. *)
Theorem announced_userId_can_be_overridden (uid : jsval) (udata : option jsobj) :
  obj_get (spread [("userId", uid)] udata) "userId"
  = match udata with
    | Some props =>
        match List.find (fun kv => String.eqb kv.1 "userId") (rev props) with
        | Some kv => kv.2
        | None => uid
        end
    | None => uid
    end.
Proof.
  destruct udata as [props|]; [| reflexivity].
  now rewrite obj_get_spread.
Qed.

Lemma plain_data_userId (uid : jsval) (udata : option jsobj) :
  plain_data udata -> obj_get (spread [("userId", uid)] udata) "userId" = uid.
Proof.
  intros Hp. rewrite announced_userId_can_be_overridden.
  destruct udata as [props|]; [| reflexivity].
  destruct (List.find _ (rev props)) as [kv|] eqn:Hf; [| reflexivity].
  apply find_some in Hf as [Hin Hk]. apply in_rev in Hin.
  simpl in Hp. rewrite Forall_forall in Hp.
  apply String.eqb_eq in Hk. apply list_elem_of_In in Hin. now apply Hp in Hin.
Qed.

(** X14: the snapshot of the second variant consists exactly of the
    entries of the other members of the room whose [userId] property is
    truthy. *)
Theorem v2_snapshot_exact (io : Io) (self roomId : string) (user : jsobj) :
  In user (V2.others io self roomId) <->
  exists id, In id (clients_of io roomId) /\ id <> self /\
             user = V2.entry io id /\ truthy (obj_get user "userId") = true.
Proof.
  unfold V2.others, other_ids. rewrite filter_In, in_map_iff. split.
  - intros [(id & <- & Hid) Ht]. exists id.
    apply list_elem_of_In, list_elem_of_filter in Hid as [Hne Hin].
    repeat split; auto. now apply list_elem_of_In.
  - intros (id & Hin & Hne & -> & Ht). split; [| exact Ht].
    exists id. split; [reflexivity |].
    apply list_elem_of_In, list_elem_of_filter. split; [exact Hne |].
    now apply list_elem_of_In.
Qed.

(** X15: in the second variant, when [a] has joined a room with a truthy
    user id and display data without a [userId] property, a different
    connection [b] that joins the room next receives a [room-users]
    snapshot listing [a]'s entry, and [a] receives [b]'s
    [user-connected] announcement. *)
Theorem snapshot_shows_earlier_joiner (io : Io) (a b roomId : string)
    (uid_a uid_b : jsval) (data_a data_b : option jsobj) :
  a <> b ->
  truthy uid_a = true ->
  plain_data data_a ->
  let io1 := (V2.join_room io a roomId uid_a data_a).1 in
  let res := V2.join_room io1 b roomId uid_b data_b in
  exists others,
    In (mkEmit b (RoomUsers others)) res.2 /\
    In (spread [("userId", uid_a)] data_a) others /\
    In (mkEmit a (UserConnected (spread [("userId", uid_b)] data_b))) res.2.
Proof.
  intros Hab Ht Hp io1 res.
  pose proof (join_room_state io a roomId uid_a data_a) as [_ E1].
  fold io1 in E1.
  destruct (join_room_keeps_memberships io a roomId uid_a data_a)
    as (Hin_a & _ & _ & _ & _).
  rewrite <- E1 in Hin_a.
  assert (Hsock_a : sockets io1 !! a = Some (mkSocket uid_a data_a)).
  { rewrite E1. unfold join_bind. simpl. apply lookup_insert_eq. }
  destruct (join_room_keeps_memberships io1 b roomId uid_b data_b)
    as (_ & Hkeep & _ & _ & Hsock).
  set (io2 := (join_bind io1 b roomId uid_b data_b).1) in *.
  assert (Hres : res = (io2, socket_to_emit io2 b roomId
                               (UserConnected (spread [("userId", uid_b)] data_b))
                             ++ [mkEmit b (RoomUsers (V2.others io2 b roomId))])).
  { reflexivity. }
  rewrite Hres. simpl. exists (V2.others io2 b roomId).
  assert (Hin2 : In a (clients_of io2 roomId)) by (apply Hkeep; exact Hin_a).
  split; [apply in_or_app; right; now left | split].
  - apply v2_snapshot_exact. exists a.
    assert (He : V2.entry io2 a = spread [("userId", uid_a)] data_a).
    { unfold V2.entry. rewrite (Hsock a Hab), Hsock_a. reflexivity. }
    rewrite He. repeat split; auto.
    now rewrite plain_data_userId.
  - apply in_or_app. left. unfold socket_to_emit.
    apply in_map_iff. exists a. split; [reflexivity |].
    apply list_elem_of_In, list_elem_of_filter. split; [exact Hab |].
    now apply list_elem_of_In.
Qed.


(** X17: [send-message] with a room id delivers one and the same
    [receive-message], built from the sender's bound user id and the
    payload's [userName], [message] and [timestamp], to every member of
    that room other than the sender and never to the sender, whether or
    not the sender is a member; each recipient gets it once when the room
    lists no connection twice. *)
Theorem chat_reaches_everyone_else (io : Io) (self r : string) (m : jsobj) :
  obj_get m "roomId" = JStr r ->
  let sent := ReceiveMessage (socket_userId io self) (obj_get m "userName")
                (obj_get m "message") (obj_get m "timestamp") in
  (forall e, In e (send_message io self m) -> msg e = sent /\ to e <> self) /\
  (forall id, In id (clients_of io r) -> id <> self ->
              In (mkEmit id sent) (send_message io self m)) /\
  (NoDup (clients_of io r) -> NoDup (map to (send_message io self m))).
Proof.
  intros Hr sent. unfold send_message. rewrite Hr. simpl. fold sent.
  unfold socket_to_emit. split; [| split].
  - intros e He. apply in_map_iff in He as (id & <- & Hid). split; [reflexivity |].
    simpl. now apply list_elem_of_In, list_elem_of_filter in Hid as [Hne _].
  - intros id Hin Hne. apply in_map_iff. exists id. split; [reflexivity |].
    apply list_elem_of_In, list_elem_of_filter. split; [exact Hne |].
    now apply list_elem_of_In.
  - intros Hnd. rewrite map_map. simpl. rewrite map_id.
    now apply NoDup_filter.
Qed.

Lemma join_room_keeps_memberships_witness :
  NoDup (clients_of Scenarios.alice_and_bob "room1") /\
  NoDup (clients_of (join_bind Scenarios.alice_and_bob "sockA" "room1"
                       (JStr "alice") None).1 "room1") /\
  In "sockA" (clients_of (join_bind Scenarios.alice_and_bob "sockA" "room2"
                            (JStr "alice") None).1 "room1").
Proof.
  assert (H : NoDup (clients_of Scenarios.alice_and_bob "room1")).
  { apply (bool_decide_unpack _). vm_compute. exact I. }
  split; [exact H | split].
  - exact (proj1 (proj2 (proj2 (proj2 (join_room_keeps_memberships
             Scenarios.alice_and_bob "sockA" "room1" (JStr "alice") None)))) "room1" H).
  - apply (proj1 (proj2 (join_room_keeps_memberships
             Scenarios.alice_and_bob "sockA" "room2" (JStr "alice") None))).
    vm_compute. auto.
Defined.

Lemma snapshot_shows_earlier_joiner_witness :
  exists others,
    In (mkEmit "sockB" (RoomUsers others))
      (V2.join_room (V2.join_room Scenarios.two_connected "sockA" "room1"
                       (JStr "alice") Scenarios.bob_data).1
         "sockB" "room1" (JStr "bob") None).2 /\
    In (spread [("userId", JStr "alice")] Scenarios.bob_data) others /\
    In (mkEmit "sockA" (UserConnected (spread [("userId", JStr "bob")] None)))
      (V2.join_room (V2.join_room Scenarios.two_connected "sockA" "room1"
                       (JStr "alice") Scenarios.bob_data).1
         "sockB" "room1" (JStr "bob") None).2.
Proof.
  apply (snapshot_shows_earlier_joiner Scenarios.two_connected "sockA" "sockB" "room1"
           (JStr "alice") (JStr "bob") Scenarios.bob_data None);
    [discriminate | reflexivity |].
  repeat constructor. discriminate.
Defined.


Lemma chat_reaches_everyone_else_witness :
  obj_get Scenarios.chat_hello "roomId" = JStr "room1" /\
  In (mkEmit "sockA" (ReceiveMessage JUndefined (JStr "Bob") (JStr "hello")
                        (JNum 1700000000)))
    (send_message outsider_chat "sockB" Scenarios.chat_hello).
Proof.
  assert (H : obj_get Scenarios.chat_hello "roomId" = JStr "room1") by reflexivity.
  split; [exact H |].
  apply (proj1 (proj2 (chat_reaches_everyone_else outsider_chat "sockB" "room1"
                         Scenarios.chat_hello H)) "sockA");
    [vm_compute; auto | discriminate].
Defined.

End RegistryProps.

Section CorsProps.
Import Cors.

Lemma prefix_app (sub rest : string) : String.prefix sub (sub ++ rest)%string = true.
Proof.
  induction sub as [|c sub IH]; simpl; [now destruct rest |].
  destruct (Ascii.ascii_dec c c) as [_ | Hne]; [exact IH | contradiction].
Qed.

Lemma includes_unfold (s sub : string) :
  includes s sub
  = if String.prefix sub s then true
    else match s with "" => false | String _ r => includes r sub end.
Proof. destruct s; reflexivity. Qed.

Lemma includes_infix (pre sub post : string) :
  includes (pre ++ sub ++ post)%string sub = true.
Proof.
  induction pre as [|c pre IH].
  - rewrite includes_unfold. change ("" ++ sub ++ post)%string with (sub ++ post)%string.
    now rewrite prefix_app.
  - rewrite includes_unfold.
    destruct (String.prefix sub _); [reflexivity | exact IH].
Qed.

Lemma infix_truthy (pre sub post : string) :
  sub <> "" -> Js.truthy_str (pre ++ sub ++ post)%string = true.
Proof.
  intros Hs. destruct pre; simpl; [| reflexivity].
  destruct sub; [contradiction | reflexivity].
Qed.

Ltac bool_cases :=
  repeat match goal with
         | |- context [includes ?a ?b] => destruct (includes a b)
         end;
  reflexivity.

(** X18: the origin callback handed to Socket.IO never rejects: in both
    variants it accepts every origin, whatever the allow-list and the
    environment. *)
Theorem socket_origin_check_accepts_all (origin : option string) :
  (forall allowed, V1.io_origin allowed origin = true) /\
  (forall production allowed, V2.io_origin production allowed origin = true).
Proof.
  split.
  - intros allowed. unfold V1.io_origin.
    repeat (case_match; try reflexivity).
  - intros production allowed. unfold V2.io_origin.
    repeat (case_match; try reflexivity).
Qed.

(** X19: the HTTP origin check accepts an origin as soon as one of its
    markers occurs anywhere in it, even with an allow-list configured
    (first variant: localhost, 127.0.0.1, ngrok, loca.lt) and even in
    production (second variant: railway.app, ngrok, loca.lt). *)
Theorem marker_anywhere_opens_http (pre post marker : string) :
  (In marker v1_markers ->
   forall allowed, V1.http_origin allowed (Some (pre ++ marker ++ post)%string) = true) /\
  (In marker v2_markers ->
   forall production allowed,
     V2.http_origin production allowed (Some (pre ++ marker ++ post)%string) = true).
Proof.
  split.
  - intros Hm allowed. unfold V1.http_origin, no_origin.
    assert (Hi := includes_infix pre marker post).
    assert (Ht : Js.truthy_str (pre ++ marker ++ post)%string = true).
    { apply infix_truthy. simpl in Hm. intuition (subst; discriminate). }
    rewrite Ht. cbn [negb default from_option id]. simpl in Hm.
    destruct (String.eqb _ "http://localhost:5173" || _); [reflexivity |].
    destruct allowed as [l|]; [| reflexivity].
    destruct (listed l _); [reflexivity |].
    destruct Hm as [<- | [<- | [<- | [<- | []]]]]; rewrite Hi; bool_cases.
  - intros Hm production allowed. unfold V2.http_origin, no_origin.
    assert (Hi := includes_infix pre marker post).
    assert (Ht : Js.truthy_str (pre ++ marker ++ post)%string = true).
    { apply infix_truthy. simpl in Hm. intuition (subst; discriminate). }
    rewrite Ht. cbn [negb default from_option id]. simpl in Hm.
    destruct (negb production && _); [reflexivity |].
    destruct (_ && listed _ _); [reflexivity |].
    destruct Hm as [<- | [<- | [<- | []]]]; rewrite Hi; bool_cases.
Qed.

Lemma marker_anywhere_opens_http_witness :
  In "localhost" v1_markers /\
  V1.http_origin (Some ["https://meet.example.com"])
    (Some "https://localhost.attacker.example") = true /\
  In "ngrok" v2_markers /\
  V2.http_origin true ["https://meet.example.com"]
    (Some "https://x.ngrok.attacker.example") = true.
Proof.
  assert (H1 : In "localhost" v1_markers) by (simpl; auto).
  assert (H2 : In "ngrok" v2_markers) by (simpl; auto).
  split; [exact H1 | split; [| split; [exact H2 |]]].
  - exact (proj1 (marker_anywhere_opens_http "https://" ".attacker.example" "localhost")
             H1 (Some ["https://meet.example.com"])).
  - exact (proj2 (marker_anywhere_opens_http "https://x." ".attacker.example" "ngrok")
             H2 true ["https://meet.example.com"]).
Defined.

End CorsProps.

Section GenInverseProps.
Import Gen GenInverse.











End GenInverseProps.

Section ChatHistoryProps.
Import ChatHistory.

Lemma room_messages_sorted (collection : list ChatDoc) (room : string) :
  let l := merge_sort newer_first
             (List.filter (fun d => String.eqb (roomId d) room) collection) in
  StronglySorted newer_first l /\
  forall d, In d l <-> In d collection /\ roomId d = room.
Proof.
  intros l. split; [apply StronglySorted_merge_sort; apply _ |].
  intros d. subst l. rewrite <- list_elem_of_In, merge_sort_Permutation,
    list_elem_of_In, filter_In.
  now rewrite String.eqb_eq.
Qed.

(** X21: the chat history of a room holds at most 100 messages, all of
    that room, newest first; a message of the room that is left out is
    not newer than any message returned; a room with at most 100 messages
    gets all of them; and when the query fails the history is empty. *)
Theorem chat_history_newest_hundred (answers : bool) (collection : list ChatDoc)
    (room : string) :
  let h := chat_history answers collection room in
  (length h <= 100)%nat /\
  (forall d, In d h -> In d collection /\ roomId d = room) /\
  StronglySorted newer_first h /\
  (forall d r, answers = true -> In d collection -> roomId d = room -> ~ In d h ->
               In r h -> (timestamp d <= timestamp r)%Z) /\
  (answers = true ->
   (length (List.filter (fun d => String.eqb (roomId d) room) collection) <= 100)%nat ->
   forall d, In d collection -> roomId d = room -> In d h) /\
  (answers = false -> h = []).
Proof.
  intros h. subst h. unfold chat_history, getByRoom.
  destruct answers.
  2:{ simpl. repeat split; try discriminate; try (intros; contradiction);
      [lia | apply SSorted_nil]. }
  set (l := merge_sort newer_first _).
  destruct (room_messages_sorted collection room) as [Hs Hin]. fold l in Hs, Hin.
  assert (Hsplit : l = firstn 100 l ++ skipn 100 l) by (symmetry; apply firstn_skipn).
  repeat split.
  - rewrite length_firstn. lia.
  - apply Hin. rewrite Hsplit. apply in_or_app. now left.
  - apply Hin. rewrite Hsplit. apply in_or_app. now left.
  - rewrite Hsplit in Hs. eapply StronglySorted_app_1_l. exact Hs.
  - intros d r _ Hd Hr Hout Hrin.
    assert (Hdl : In d l) by (apply Hin; auto).
    rewrite Hsplit in Hdl. apply in_app_or in Hdl as [Hd1 | Hd2]; [contradiction |].
    rewrite Hsplit in Hs.
    apply (StronglySorted_app_1_elem_of newer_first _ _ r d Hs);
      now apply list_elem_of_In.
  - intros _ Hlen d Hd Hr.
    assert (Hl : (length l <= 100)%nat).
    { unfold l. now rewrite merge_sort_Permutation. }
    rewrite firstn_all2 by exact Hl. apply Hin. auto.
  - discriminate.
Qed.

Lemma chat_history_newest_hundred_witness :
  map id (chat_history true sample_chat "room1") = ["m3"; "m4"; "m1"] /\
  forall d, In d sample_chat -> roomId d = "room1" ->
            In d (chat_history true sample_chat "room1").
Proof.
  split; [vm_compute; reflexivity |].
  apply (proj1 (proj2 (proj2 (proj2 (proj2
           (chat_history_newest_hundred true sample_chat "room1"))))));
    [reflexivity | vm_compute; lia].
Defined.

End ChatHistoryProps.

Section TranscriptProps.
Import Signaling Transcripts.








(** X24: no request reaches the health handler of the transcript router:
    the route [/:roomId], registered before [/health], takes every path
    that [/health] matches, so [GET /health] is answered by the handler
    that reads the transcripts of the room ["health"].  The other four
    handlers can all be reached. *)
Theorem health_route_is_shadowed :
  (forall m path, dispatch m path <> Some HHealth) /\
  dispatch GET ["health"] = Some HGetRoom /\
  (forall h, h <> HHealth -> exists m path, dispatch m path = Some h).
Proof.
  split; [|split].
  - intros m path. unfold dispatch, routes. cbn [List.find fst snd].
    destruct m; cbn [method_eqb andb].
    + destruct path as [|s [|s' path]]; cbn [matches seg_matches andb].
      * discriminate.
      * destruct (Js.truthy_str s) eqn:Hs; cbn [andb]; [discriminate|].
        destruct s; [|discriminate]. cbn. discriminate.
      * rewrite !andb_false_r.
        destruct path; cbn [matches];
          rewrite ?andb_false_r, ?andb_true_r;
          repeat match goal with |- context [if ?c then _ else _] => destruct c end;
          discriminate.
    + destruct (matches _ path); discriminate.
    + destruct (matches _ path); discriminate.
  - reflexivity.
  - intros h Hh. destruct h; try contradiction.
    + exists POST, ["save"]. reflexivity.
    + exists GET, ["room1"]. reflexivity.
    + exists DELETE, ["room1"]. reflexivity.
    + exists GET, ["room1"; "export"]. reflexivity.
Qed.

End TranscriptProps.
